(** * A tool-calling agent on a state graph: model of [src/index.ts]

    The program wires two nodes, [llmCall] and [toolNode], into a state graph:
    the model is asked for an answer, the tools it requests are run, and the
    model is asked again until it requests no tool.

    JavaScript numbers are IEEE 754 binary64 values: they are modelled by the
    kernel's primitive floats, so that [a + b], [a * b] and [a / b] are the
    operations the program performs.  An [async] function is a computation in
    the monad [M]: it may throw, and it leaves a chronological record of what
    it awaited in the [World]. *)

From Stdlib Require Import PrimFloat String List Bool Arith Lia.
Import ListNotations.
Open Scope string_scope.
Open Scope list_scope.

Set Implicit Arguments.

(** ** Values *)

Definition number := float.

(** The values a tool call's [args] object may hold (it is parsed JSON). *)
Inductive JsValue : Type :=
| JNum (x : number)
| JStr (s : string)
| JBool (b : bool)
| JNull.

(** A JavaScript object read as a map from property names: own properties in
    insertion order. *)
Definition JsObject (A : Type) := list (string * A).

Fixpoint own {A : Type} (o : JsObject A) (k : string) : option A :=
  match o with
  | [] => None
  | (k', v) :: o' => if String.eqb k' k then Some v else own o' k
  end.

(** [xs.at(-1)]: the last element, [None] for [undefined]. *)
Fixpoint at_last {A : Type} (xs : list A) : option A :=
  match xs with
  | [] => None
  | [x] => Some x
  | _ :: xs' => at_last xs'
  end.

(** ** Messages *)

Module ToolCall.
Record t : Type := mk { name : string; args : JsObject JsValue; id : string }.
End ToolCall.

(** An [AIMessage]: [tool_calls] is an optional property (the program reads it
    with [?.] and [??]). *)
Module AI.
Record t : Type := mk { content : string; tool_calls : option (list ToolCall.t) }.
End AI.

(** A [ToolMessage].  [content] is the value the handler returned; the text
    the library serializes it to is not modelled. *)
Module Tool.
Record t : Type := mk { content : number; tool_call_id : string; name : string }.
End Tool.

Inductive Message : Type :=
| SystemMessage (text : string)
| HumanMessage (text : string)
| AIMessage (m : AI.t)
| ToolMessage (m : Tool.t).

(** [AIMessage.isInstance]. *)
Definition AIMessage_isInstance (m : Message) : bool :=
  match m with AIMessage _ => true | _ => false end.

(** ** State and partial updates (the schema [MessagesState]) *)

Record State : Type := mkState { messages : list Message; llmCalls : number }.

(** What a node returns: each field of the schema may be present or absent. *)
Record Update : Type :=
  mkUpdate { u_messages : option (list Message); u_llmCalls : option number }.

(** Modelled from the spec: the reducer of [MessagesValue], which belongs to the
    graph library and is missing from the sources: "append — the returned
    sequence is concatenated onto the existing log, never replacing it". *)
Definition MessagesValue (log new : list Message) : list Message := log ++ new.

(** The reducer declared for [llmCalls]: [(x, y) => x + y]. *)
Definition reducer (x y : number) : number := (x + y)%float.

(** The default declared for [llmCalls]: [z.number().default(0)]. *)
Definition llmCalls_default : number := 0%float.

(** Modelled from the spec: the state container's [merge], missing from the
    sources: "for each field present in the partial update, apply that field's
    declared merge policy; fields absent are left unchanged". *)
Definition merge (st : State) (u : Update) : State :=
  {| messages := match u_messages u with
                 | Some new => MessagesValue (messages st) new
                 | None => messages st
                 end;
     llmCalls := match u_llmCalls u with
                 | Some k => reducer (llmCalls st) k
                 | None => llmCalls st
                 end |}.

(** ** Asynchronous code: errors and the record of what was awaited *)

Inductive Error : Type :=
| ToolInputParsingException (toolName : string) (callId : string)
| TypeError (msg : string)
| BackendError (msg : string)
| GraphError (msg : string).

Inductive Result (A : Type) : Type :=
| Ok (a : A)
| Throw (e : Error).
Arguments Throw {A} e.

Inductive Event : Type :=
| EvNode (name : string)                (* the executor enters a node *)
| EvModel (input : list Message)        (* the model backend is invoked *)
| EvToolStart (call : ToolCall.t)       (* [t.invoke(toolCall)] begins *)
| EvToolDone (call : ToolCall.t).       (* its observation is pushed on [result] *)

Record World : Type := mkWorld { invocations : nat; events : list Event }.

Definition M (A : Type) : Type := World -> Result A * World.

Definition ret {A : Type} (a : A) : M A := fun w => (Ok a, w).

Definition throw {A : Type} (e : Error) : M A := fun w => (Throw e, w).

Definition bind {A B : Type} (m : M A) (k : A -> M B) : M B :=
  fun w => match m w with
           | (Ok a, w') => k a w'
           | (Throw e, w') => (Throw e, w')
           end.

Definition emit (e : Event) : M unit :=
  fun w => (Ok tt, {| invocations := invocations w; events := events w ++ [e] |}).

Declare Scope async_scope.
Delimit Scope async_scope with async.
Notation "x <- m ;; k" := (bind m (fun x => k))
  (at level 61, m at next level, right associativity) : async_scope.
Notation "m ;; k" := (bind m (fun _ => k))
  (at level 61, right associativity) : async_scope.
Open Scope async_scope.

(** ** Tools *)

Inductive ZodType : Type := z_number (describe : string).

Definition z_object (shape : JsObject ZodType) : JsObject ZodType := shape.

(** Reading a field of the parsed input; a missing one is [undefined], which
    arithmetic turns into [NaN]. *)
Definition field (o : JsObject number) (k : string) : number :=
  match own o k with Some x => x | None => nan end.

(** Modelled from the spec: validation of a call's arguments against the
    tool's schema, done by the tool library and missing from the sources:
    the schema's "field names, types" are used "to validate/deserialize
    incoming arguments before invocation".  Every field of the shape must be
    present and hold a number; other fields are dropped. *)
Fixpoint parse (shape : JsObject ZodType) (args : JsObject JsValue)
  : option (JsObject number) :=
  match shape with
  | [] => Some []
  | (k, z_number _) :: shape' =>
      match own args k, parse shape' args with
      | Some (JNum x), Some o => Some ((k, x) :: o)
      | _, _ => None
      end
  end.

Module StructuredTool.
Record t : Type :=
  mk { func : JsObject number -> number;
       name : string;
       description : string;
       schema : JsObject ZodType }.

(** Modelled from the spec: [t.invoke(toolCall)] of the tool library,
    missing from the sources.  The arguments are validated, the handler is
    run, and the outcome is "one ToolResult message carrying the same id";
    a call whose arguments do not validate fails (the handler "throws"). *)
Definition invoke (h : t) (toolCall : ToolCall.t) : Result Tool.t :=
  match parse (schema h) (ToolCall.args toolCall) with
  | Some input =>
      Ok (Tool.mk (func h input) (ToolCall.id toolCall) (name h))
  | None =>
      Throw (ToolInputParsingException (name h) (ToolCall.id toolCall))
  end.
End StructuredTool.

(** The constructor [tool(func, {name, description, schema})]. *)
Definition tool (func : JsObject number -> number)
    (name description : string) (schema : JsObject ZodType) : StructuredTool.t :=
  StructuredTool.mk func name description schema.

Definition add : StructuredTool.t :=
  tool (fun o => (field o "a" + field o "b")%float)
       "add" "Add two numbers"
       (z_object [("a", z_number "First number"); ("b", z_number "Second number")]).

Definition multiply : StructuredTool.t :=
  tool (fun o => (field o "a" * field o "b")%float)
       "multiply" "Multiply two numbers"
       (z_object [("a", z_number "First number"); ("b", z_number "Second number")]).

Definition divide : StructuredTool.t :=
  tool (fun o => (field o "a" / field o "b")%float)
       "divide" "Divide two numbers"
       (z_object [("a", z_number "First number"); ("b", z_number "Second number")]).

Definition toolsByName : JsObject StructuredTool.t :=
  [ (StructuredTool.name add, add);
    (StructuredTool.name multiply, multiply);
    (StructuredTool.name divide, divide) ].

Definition tools : list StructuredTool.t := map snd toolsByName.

(** [toolsByName] is an object literal, so a property it does not own is read
    from [Object.prototype]. *)
Definition Object_prototype : list string :=
  [ "constructor"; "__defineGetter__"; "__defineSetter__"; "hasOwnProperty";
    "__lookupGetter__"; "__lookupSetter__"; "isPrototypeOf";
    "propertyIsEnumerable"; "toString"; "valueOf"; "__proto__";
    "toLocaleString" ].

(** The outcome of the read [o[k]]. *)
Inductive Property (A : Type) : Type :=
| Own (v : A)        (* an own property *)
| Inherited          (* a function or object of [Object.prototype]: truthy *)
| Undefined.
Arguments Inherited {A}.
Arguments Undefined {A}.

Definition get {A : Type} (o : JsObject A) (k : string) : Property A :=
  match own o k with
  | Some v => Own v
  | None => if existsb (String.eqb k) Object_prototype then Inherited else Undefined
  end.

(** [await t.invoke(toolCall)] for a truthy [t]: an inherited value has no
    [invoke] method, and calling it throws. *)
Definition observe (t : Property StructuredTool.t) (toolCall : ToolCall.t)
  : Result Tool.t :=
  match t with
  | Own h => StructuredTool.invoke h toolCall
  | _ => Throw (TypeError "t.invoke is not a function")
  end.

Definition await {A : Type} (r : Result A) : M A := fun w => (r, w).

(** ** The nodes *)

Definition GraphNode : Type := State -> M Update.

Definition START : string := "__start__".
Definition END : string := "__end__".

(** The loop of [toolNode]: [for (const toolCall of ...)] with the array
    [result] built so far. *)
Fixpoint dispatch (calls : list ToolCall.t) (result : list Tool.t)
  : M (list Tool.t) :=
  match calls with
  | [] => ret result
  | toolCall :: rest =>
      match get toolsByName (ToolCall.name toolCall) with
      | Undefined => dispatch rest result                     (* continue *)
      | t =>
          emit (EvToolStart toolCall) ;;
          observation <- await (observe t toolCall) ;;
          emit (EvToolDone toolCall) ;;
          dispatch rest (result ++ [observation])
      end
  end.

(** [lastMessage.tool_calls ?? []]. *)
Definition tool_calls_or_empty (m : AI.t) : list ToolCall.t :=
  match AI.tool_calls m with Some calls => calls | None => [] end.

Definition toolNode : GraphNode := fun state =>
  match at_last (messages state) with
  | Some (AIMessage lastMessage) =>
      result <- dispatch (tool_calls_or_empty lastMessage) [] ;;
      ret (mkUpdate (Some (map ToolMessage result)) None)
  | _ => ret (mkUpdate (Some []) None)
  end.

Definition shouldContinue (state : State) : string :=
  match at_last (messages state) with
  | Some (AIMessage lastMessage) =>
      match option_map (@length _) (AI.tool_calls lastMessage) with
      | Some (S _) => "toolNode"        (* [tool_calls?.length] is truthy *)
      | _ => END
      end
  | _ => END
  end.

Definition system_prompt : string :=
  "You are a helpful assistant tasked with performing arithmetic on a set of inputs.".

Section Backend.

(** The model with the tools bound to it.  Its answer may depend on what it
    was asked before: it is given the number of earlier invocations and the
    messages of this one, and either answers with an assistant message or
    fails. *)
Variable modelWithTools : nat -> list Message -> Result AI.t.

Definition modelWithTools_invoke (input : list Message) : M AI.t :=
  fun w =>
    (modelWithTools (invocations w) input,
     {| invocations := S (invocations w);
        events := events w ++ [EvModel input] |}).

Definition llmCall : GraphNode := fun state =>
  response <- modelWithTools_invoke
                (SystemMessage system_prompt :: messages state) ;;
  ret (mkUpdate (Some [AIMessage response]) (Some 1%float)).

End Backend.

(** ** The graph *)

Module StateGraph.

Record t : Type :=
  mk { nodes : JsObject GraphNode;
       edges : JsObject string;
       branches : JsObject ((State -> string) * list string) }.

(** [new StateGraph(MessagesState)]. *)
Definition new : t := mk [] [] [].

Definition addNode (name : string) (fn : GraphNode) (g : t) : t :=
  mk (nodes g ++ [(name, fn)]) (edges g) (branches g).

Definition addEdge (source target : string) (g : t) : t :=
  mk (nodes g) (edges g ++ [(source, target)]) (branches g).

Definition addConditionalEdges (source : string) (path : State -> string)
    (pathMap : list string) (g : t) : t :=
  mk (nodes g) (edges g) (branches g ++ [(source, (path, pathMap))]).

Definition declared (g : t) (name : string) : bool :=
  match own (nodes g) name with Some _ => true | None => false end.

(** Modelled from the spec: the checks of [compile()], which belongs to the
    graph library and is missing from the sources: the entry must be set,
    every name an edge refers to (the terminal marker apart) must be a
    declared node, and a node has at most one of a fixed and a conditional
    edge. *)
Definition compile (g : t) : Result t :=
  if negb (existsb (fun e => fst e =? START) (edges g)) then
    Throw (GraphError "entry point is not set")
  else if negb (forallb (fun e => ((fst e =? START) || declared g (fst e))
                                  && ((snd e =? END) || declared g (snd e)))
                        (edges g)) then
    Throw (GraphError "edge refers to an undeclared node")
  else if negb (forallb (fun b => declared g (fst b)
                                  && forallb (fun d => (d =? END) || declared g d)
                                             (snd (snd b)))
                        (branches g)) then
    Throw (GraphError "conditional edge refers to an undeclared node")
  else if existsb (fun b => existsb (fun e => fst e =? fst b) (edges g))
                  (branches g) then
    Throw (GraphError "node has both a fixed and a conditional edge")
  else Ok g.

(** How a run stands: it reached the terminal marker, it failed, or the
    steps granted to [exec] ran out before [node] was executed. *)
Inductive Run : Type :=
| Finished (final : State)
| Aborted (e : Error)
| Pending (node : string) (st : State).

(** Modelled from the spec: step 3 of the executor, missing from the sources:
    "if the current node has a fixed edge, that is the destination; if it has
    a conditional edge, invoke its resolver", the result being "constrained
    to the allowed destinations and the terminal marker". *)
Definition destination (g : t) (current : string) (st : State) : Result string :=
  match own (edges g) current with
  | Some target => Ok target
  | None =>
      match own (branches g) current with
      | Some (path, pathMap) =>
          let target := path st in
          if existsb (String.eqb target) (END :: pathMap) then Ok target
          else Throw (GraphError "branch returned an unknown destination")
      | None => Throw (GraphError "node has no outgoing edge")
      end
  end.

(** Modelled from the spec: the executor's step loop, which belongs to the
    graph library and is missing from the sources: run the current node,
    merge its update into the state, resolve the destination against the
    state after the merge, stop at the terminal marker.  The loop has no
    bound of its own; [fuel] is the number of node executions granted. *)
Fixpoint exec (g : t) (fuel : nat) (current : string) (st : State) (w : World)
  : Run * World :=
  match fuel with
  | O => (Pending current st, w)
  | S fuel' =>
      match own (nodes g) current with
      | None => (Aborted (GraphError "unknown node"), w)
      | Some node =>
          match (emit (EvNode current) ;; node st) w with
          | (Throw e, w') => (Aborted e, w')
          | (Ok update, w') =>
              let st' := merge st update in
              match destination g current st' with
              | Throw e => (Aborted e, w')
              | Ok target =>
                  if target =? END then (Finished st', w')
                  else exec g fuel' target st' w'
              end
          end
      end
  end.

(** [graph.invoke({messages: input})]: the state starts from the schema's
    defaults with the caller's messages merged in, and the run starts at the
    destination of the entry edge. *)
Definition invoke (graph : Result t) (input : list Message) (fuel : nat)
    (w : World) : Run * World :=
  match graph with
  | Throw e => (Aborted e, w)
  | Ok g =>
      let st := merge (mkState [] llmCalls_default) (mkUpdate (Some input) None) in
      match destination g START st with
      | Throw e => (Aborted e, w)
      | Ok target =>
          if target =? END then (Finished st, w) else exec g fuel target st w
      end
  end.

End StateGraph.

Notation "g |> f" := (f g) (at level 45, left associativity, only parsing).

Definition agent (modelWithTools : nat -> list Message -> Result AI.t)
  : Result StateGraph.t :=
  StateGraph.new
  |> StateGraph.addNode "llmCall" (llmCall modelWithTools)
  |> StateGraph.addNode "toolNode" toolNode
  |> StateGraph.addEdge START "llmCall"
  |> StateGraph.addConditionalEdges "llmCall" shouldContinue ["toolNode"; END]
  |> StateGraph.addEdge "toolNode" "llmCall"
  |> StateGraph.compile.

(** A fresh process: nothing has been awaited yet. *)
Definition boot : World := mkWorld 0 [].

(** ** Reading a batch of tool calls

    What the dispatch loop does with one call is decided by the read of
    [toolsByName] at the call's name. *)

(** The name is a key of the registry. *)
Definition registered (call : ToolCall.t) : bool :=
  match own toolsByName (ToolCall.name call) with Some _ => true | None => false end.

(** The read [toolsByName[call.name]] is truthy: the loop does not [continue]. *)
Definition resolved (call : ToolCall.t) : bool :=
  match get toolsByName (ToolCall.name call) with Undefined => false | _ => true end.

(** What awaiting [t.invoke(call)] gives for the value read at the call's name. *)
Definition outcome (call : ToolCall.t) : Result Tool.t :=
  observe (get toolsByName (ToolCall.name call)) call.

Definition succeeds (call : ToolCall.t) : bool :=
  match outcome call with Ok _ => true | Throw _ => false end.

(** The observation [m] answers [call]. *)
Definition answers (call : ToolCall.t) (m : Tool.t) : Prop :=
  outcome call = Ok m /\ Tool.tool_call_id m = ToolCall.id call.

(** The record left by handling [calls] one after the other, each to its end. *)
Definition answered (calls : list ToolCall.t) : list Event :=
  flat_map (fun call => [EvToolStart call; EvToolDone call]) calls.

(** The records of handlers run one at a time in the order of [calls]: a
    handler starts only when the observation of the call before it has been
    collected, and nothing follows a handler that was started and gave no
    observation. *)
Inductive Sequential : list ToolCall.t -> list Event -> Prop :=
| Sequential_end : Sequential [] []
| Sequential_stop (call : ToolCall.t) (calls : list ToolCall.t) :
    Sequential (call :: calls) [EvToolStart call]
| Sequential_next (call : ToolCall.t) (calls : list ToolCall.t) (tr : list Event) :
    Sequential calls tr ->
    Sequential (call :: calls) (EvToolStart call :: EvToolDone call :: tr).

(** The nodes a run entered, in order. *)
Fixpoint entered (tr : list Event) : list string :=
  match tr with
  | [] => []
  | EvNode name :: tr' => name :: entered tr'
  | _ :: tr' => entered tr'
  end.

(** [k] rounds of the loop between the two nodes. *)
Fixpoint rounds (k : nat) : list string :=
  match k with
  | O => []
  | S k' => "toolNode" :: "llmCall" :: rounds k'
  end.

(** A backend that answers its invocations from a list, for examples. *)
Definition scripted (replies : list AI.t) : nat -> list Message -> Result AI.t :=
  fun n _ =>
    match nth_error replies n with
    | Some reply => Ok reply
    | None => Throw (BackendError "no reply left")
    end.

(** ** Reading the log of a run *)

(** A message a node produces: the model's answer or a tool's observation. *)
Definition is_reply (m : Message) : bool :=
  match m with
  | AIMessage _ | ToolMessage _ => true
  | _ => false
  end.

(** An assistant message that requests no tool. *)
Definition final_answer (m : Message) : bool :=
  match m with
  | AIMessage a =>
      match AI.tool_calls a with
      | None | Some [] => true
      | Some (_ :: _) => false
      end
  | _ => false
  end.

(** An invocation of the backend was given the system prompt, then [log],
    then possibly more. *)
Definition prompted (log : list Message) (ev : Event) : Prop :=
  match ev with
  | EvModel input => exists later, input = SystemMessage system_prompt :: log ++ later
  | _ => True
  end.

(** What one execution of [llmCall] does to the counter. *)
Definition increment (c : number) : number := reducer c 1%float.

(** * Properties *)

(** ** Lists, objects and the monad *)

Lemma at_last_app (A : Type) (xs : list A) (x : A) :
  at_last (xs ++ [x]) = Some x.
Proof.
  induction xs as [|y ys IH]; [reflexivity|].
  simpl. rewrite IH. destruct (ys ++ [x]) eqn:E; [|reflexivity].
  destruct ys; discriminate.
Qed.

Lemma at_last_cases (A : Type) (xs : list A) :
  xs = [] \/ exists ys x, xs = ys ++ [x].
Proof.
  induction xs as [|x ys _] using rev_ind; [now left|right; eauto].
Qed.

Lemma emit_events (e : Event) (w : World) :
  emit e w = (Ok tt, mkWorld (invocations w) (events w ++ [e])).
Proof. reflexivity. Qed.

(** ** The edge resolver *)

(** C1. Whatever the earlier messages of the log, [shouldContinue] returns
    [END] when the log is empty, when its last message is not an assistant
    message, and when it is an assistant message whose [tool_calls] is absent
    or empty; it returns ["toolNode"] when the last message is an assistant
    message with at least one tool call.  The two answers differ. *)
Theorem shouldContinue_routing :
  forall (earlier : list Message) (n : number),
    shouldContinue (mkState [] n) = END /\
    (forall m, AIMessage_isInstance m = false ->
               shouldContinue (mkState (earlier ++ [m]) n) = END) /\
    (forall text,
        shouldContinue (mkState (earlier ++ [AIMessage (AI.mk text None)]) n) = END /\
        shouldContinue (mkState (earlier ++ [AIMessage (AI.mk text (Some []))]) n) = END) /\
    (forall text call calls,
        shouldContinue
          (mkState (earlier ++ [AIMessage (AI.mk text (Some (call :: calls)))]) n)
        = "toolNode") /\
    END <> "toolNode".
Proof.
  intros earlier n. unfold shouldContinue. simpl messages.
  repeat split; intros; rewrite ?at_last_app; try reflexivity.
  - destruct m; try reflexivity. discriminate.
  - discriminate.
Qed.

(** ** Merging a partial update *)

Lemma merge_messages (st : State) (u : Update) :
  messages (merge st u)
  = messages st ++ match u_messages u with Some new => new | None => [] end.
Proof.
  unfold merge, MessagesValue. simpl. destruct (u_messages u); [reflexivity|].
  now rewrite app_nil_r.
Qed.

Lemma exec_log_grows (g : StateGraph.t) (fuel : nat) :
  forall (current : string) (st : State) (w : World),
    match fst (StateGraph.exec g fuel current st w) with
    | StateGraph.Finished st' | StateGraph.Pending _ st' =>
        exists suffix, messages st' = messages st ++ suffix
    | StateGraph.Aborted _ => True
    end.
Proof.
  induction fuel as [|fuel IH]; intros current st w; simpl.
  - exists []. now rewrite app_nil_r.
  - destruct (own (StateGraph.nodes g) current) as [node|]; simpl; [|exact I].
    unfold bind. rewrite emit_events.
    destruct (node st _) as [[update|e] w']; simpl; [|exact I].
    destruct (StateGraph.destination g current (merge st update)) as [target|e];
      simpl; [|exact I].
    destruct (target =? END).
    + simpl. eexists. apply merge_messages.
    + specialize (IH target (merge st update) w').
      destruct (fst (StateGraph.exec g fuel target (merge st update) w'));
        try exact I;
        destruct IH as [suffix ->]; rewrite merge_messages, <- app_assoc; eauto.
Qed.

(** C6. Merging a partial update appends: the merged log is the old log
    followed by the update's messages (nothing when the update has none), so
    the old log is a prefix of it and the log does not shrink; and across the
    merges of a run of the executor, on any graph, the log of the state
    reached extends the log the run started from. *)
Theorem messages_merge_append_only :
  (forall (st : State) (u : Update),
      messages (merge st u)
      = messages st ++ match u_messages u with Some new => new | None => [] end
      /\ firstn (length (messages st)) (messages (merge st u)) = messages st
      /\ length (messages st) <= length (messages (merge st u))) /\
  (forall (g : StateGraph.t) (fuel : nat) (current : string) (st : State) (w : World),
      match fst (StateGraph.exec g fuel current st w) with
      | StateGraph.Finished st' | StateGraph.Pending _ st' =>
          exists suffix, messages st' = messages st ++ suffix
      | StateGraph.Aborted _ => True
      end).
Proof.
  split.
  - intros st u. rewrite merge_messages. repeat split.
    + rewrite firstn_app, Nat.sub_diag, firstn_all. simpl. apply app_nil_r.
    + rewrite length_app. lia.
  - intros. apply exec_log_grows.
Qed.

(** C7. Merging an update that carries the counter delta [k] into a state
    whose counter is [c] leaves the counter at [c + k], the sum the declared
    reducer computes; an update without the counter field leaves it as it
    was.  Neither depends on the messages of the update. *)
Theorem llmCalls_merge_additive :
  forall (st : State) (new : option (list Message)),
    (forall k : number,
        llmCalls (merge st (mkUpdate new (Some k))) = (llmCalls st + k)%float
        /\ llmCalls (merge st (mkUpdate new (Some k))) = reducer (llmCalls st) k) /\
    llmCalls (merge st (mkUpdate new None)) = llmCalls st.
Proof. intros st new. split; [intros k; split|]; reflexivity. Qed.

(** ** The reasoning node *)

(** C8. When the backend answers with the assistant message [response],
    [llmCall] returns the update whose messages are that one message and
    whose counter delta is 1, so merging it makes the log one message longer,
    [response] last, and adds 1 to the counter.  When the backend fails,
    [llmCall] fails with the same error and returns no update. *)
Theorem llmCall_contract :
  forall (modelWithTools : nat -> list Message -> Result AI.t)
         (st : State) (w : World),
    match modelWithTools (invocations w) (SystemMessage system_prompt :: messages st) with
    | Ok response =>
        exists w',
          llmCall modelWithTools st w
          = (Ok (mkUpdate (Some [AIMessage response]) (Some 1%float)), w') /\
          let st' := merge st (mkUpdate (Some [AIMessage response]) (Some 1%float)) in
          messages st' = messages st ++ [AIMessage response] /\
          length (messages st') = S (length (messages st)) /\
          llmCalls st' = (llmCalls st + 1)%float
    | Throw e => fst (llmCall modelWithTools st w) = Throw e
    end.
Proof.
  intros modelWithTools st w.
  unfold llmCall, bind, modelWithTools_invoke.
  destruct (modelWithTools _ _) as [response|e]; [|reflexivity].
  eexists. split; [reflexivity|]. simpl. unfold MessagesValue.
  repeat split. rewrite length_app. simpl. lia.
Qed.

(** ** The dispatch loop *)

Lemma dispatch_cons (call : ToolCall.t) (rest : list ToolCall.t)
    (result : list Tool.t) (w : World) :
  dispatch (call :: rest) result w
  = if resolved call then
      match outcome call with
      | Ok m =>
          dispatch rest (result ++ [m])
            (mkWorld (invocations w)
                     (events w ++ [EvToolStart call; EvToolDone call]))
      | Throw e =>
          (Throw e, mkWorld (invocations w) (events w ++ [EvToolStart call]))
      end
    else dispatch rest result w.
Proof.
  unfold resolved, outcome. simpl.
  destruct (get toolsByName (ToolCall.name call)) as [h| |]; try reflexivity;
    unfold bind, emit, await; simpl.
  - destruct (StructuredTool.invoke h call); simpl; [|reflexivity].
    now rewrite <- app_assoc.
Qed.

Lemma dispatch_app (pre post : list ToolCall.t) :
  forall (result : list Tool.t) (w : World),
    dispatch (pre ++ post) result w
    = match dispatch pre result w with
      | (Ok result', w') => dispatch post result' w'
      | (Throw e, w') => (Throw e, w')
      end.
Proof.
  induction pre as [|call pre IH]; intros result w; [reflexivity|].
  rewrite <- app_comm_cons, !dispatch_cons.
  destruct (resolved call); [|apply IH].
  destruct (outcome call); [apply IH|reflexivity].
Qed.

Lemma outcome_registered (call : ToolCall.t) (m : Tool.t) :
  outcome call = Ok m -> registered call = true /\ answers call m.
Proof.
  unfold outcome, registered, answers, outcome, get, observe.
  destruct (own toolsByName (ToolCall.name call)) as [h|].
  - unfold StructuredTool.invoke.
    destruct (parse _ _); intros [= <-]. auto.
  - destruct (existsb _ _); discriminate.
Qed.

Lemma registered_resolved (call : ToolCall.t) :
  registered call = true -> resolved call = true.
Proof.
  unfold registered, resolved, get.
  now destruct (own toolsByName (ToolCall.name call)).
Qed.

Lemma filter_resolved_registered (calls : list ToolCall.t) :
  Forall (fun call => succeeds call = true) (filter resolved calls) ->
  filter resolved calls = filter registered calls.
Proof.
  induction calls as [|call calls IH]; [reflexivity|]. simpl.
  destruct (resolved call) eqn:R.
  - intros H. inversion H as [|? ? Hc Hrest]; subst.
    unfold succeeds in Hc. destruct (outcome call) as [m|] eqn:O; [|discriminate].
    destruct (outcome_registered _ O) as [-> _]. now rewrite IH.
  - intros H. destruct (registered call) eqn:G; [|auto].
    apply registered_resolved in G. congruence.
Qed.

(** One run of the loop, whatever its outcome. *)
Lemma dispatch_run (calls : list ToolCall.t) :
  forall (result : list Tool.t) (w : World),
    invocations (snd (dispatch calls result w)) = invocations w /\
    exists tr,
      events (snd (dispatch calls result w)) = events w ++ tr /\
      Sequential (filter resolved calls) tr /\
      match fst (dispatch calls result w) with
      | Ok result' =>
          exists observations,
            result' = result ++ observations /\
            Forall2 answers (filter resolved calls) observations /\
            tr = answered (filter resolved calls)
      | Throw e =>
          exists pre call post,
            filter resolved calls = pre ++ call :: post /\
            outcome call = Throw e /\
            tr = answered pre ++ [EvToolStart call]
      end.
Proof.
  induction calls as [|call calls IH]; intros result w.
  - simpl. split; [reflexivity|]. exists []. rewrite !app_nil_r.
    repeat split; [constructor|]. exists []. rewrite app_nil_r.
    repeat split. constructor.
  - rewrite dispatch_cons. simpl filter.
    destruct (resolved call) eqn:R; [|apply IH].
    destruct (outcome call) as [m|e] eqn:O.
    + specialize (IH (result ++ [m])
                     (mkWorld (invocations w)
                        (events w ++ [EvToolStart call; EvToolDone call]))).
      destruct IH as [Hinv [tr [Hev [Hseq Hres]]]]. split; [exact Hinv|].
      exists (EvToolStart call :: EvToolDone call :: tr).
      split; [rewrite Hev; simpl; now rewrite <- app_assoc|].
      split; [now constructor|].
      destruct (fst (dispatch calls _ _)) as [result'|e].
      * destruct Hres as [obs [-> [Hall ->]]]. exists (m :: obs).
        rewrite <- app_assoc. repeat split.
        constructor; [|exact Hall]. apply (outcome_registered _ O).
      * destruct Hres as [pre [c [post [Hf [Hc ->]]]]].
        exists (call :: pre), c, post. rewrite Hf. repeat split. exact Hc.
    + simpl. split; [reflexivity|]. exists [EvToolStart call].
      repeat split; [constructor|]. exists [], call, (filter resolved calls).
      repeat split. exact O.
Qed.

(** The loop returns as soon as every call it does not skip succeeds. *)
Lemma dispatch_returns (calls : list ToolCall.t) :
  Forall (fun call => succeeds call = true) (filter resolved calls) ->
  forall (result : list Tool.t) (w : World),
  exists observations,
    dispatch calls result w
    = (Ok (result ++ observations),
       mkWorld (invocations w) (events w ++ answered (filter resolved calls))) /\
    Forall2 answers (filter resolved calls) observations.
Proof.
  induction calls as [|call calls IH]; intros H result w.
  - exists []. simpl. rewrite !app_nil_r. destruct w. split; [reflexivity|constructor].
  - rewrite dispatch_cons. simpl in H |- *.
    destruct (resolved call) eqn:R; [|now apply IH].
    inversion H as [|? ? Hc Hrest]; subst. unfold succeeds in Hc.
    destruct (outcome call) as [m|] eqn:O; [|discriminate].
    destruct (IH Hrest (result ++ [m])
                 (mkWorld (invocations w)
                    (events w ++ [EvToolStart call; EvToolDone call])))
      as [obs [-> Hall]].
    exists (m :: obs). simpl. rewrite <- !app_assoc. simpl. split; [reflexivity|].
    constructor; [|exact Hall]. apply (outcome_registered _ O).
Qed.

Lemma Forall2_answers_succeed (calls : list ToolCall.t) (ms : list Tool.t) :
  Forall2 answers calls ms -> Forall (fun call => succeeds call = true) calls.
Proof.
  induction 1 as [|call m calls ms [O _] _ IH]; constructor; [|exact IH].
  unfold succeeds. now rewrite O.
Qed.

Lemma Forall2_answers_ids (calls : list ToolCall.t) (ms : list Tool.t) :
  Forall2 answers calls ms -> map Tool.tool_call_id ms = map ToolCall.id calls.
Proof.
  induction 1 as [|call m calls ms [_ Hid] _ IH]; [reflexivity|].
  simpl. now rewrite Hid, IH.
Qed.

Lemma toolNode_on_calls (earlier : list Message) (text : string)
    (calls : list ToolCall.t) (n : number) (w : World) :
  toolNode (mkState (earlier ++ [AIMessage (AI.mk text (Some calls))]) n) w
  = match dispatch calls [] w with
    | (Ok result, w') => (Ok (mkUpdate (Some (map ToolMessage result)) None), w')
    | (Throw e, w') => (Throw e, w')
    end.
Proof. unfold toolNode. cbn [messages]. now rewrite at_last_app. Qed.

(** ** The tool-dispatch node *)

(** C2. On a state whose last message is an assistant message with the tool
    calls [calls], [toolNode] runs the handlers one at a time in the order of
    the calls: its record is [Sequential] for the calls it does not skip.
    When it returns an update, the update holds one tool message for each
    call whose name is registered, in the order of the calls, each the
    observation of its call and carrying its id, and every handler ran to its
    end.  When every call names a registered tool and its handler succeeds,
    [toolNode] does return, with one tool message per call in the order
    [c1, ..., cn]. *)
Theorem toolNode_dispatch_order :
  forall (earlier : list Message) (text : string) (calls : list ToolCall.t)
         (n : number) (w : World),
    let st := mkState (earlier ++ [AIMessage (AI.mk text (Some calls))]) n in
    (exists tr,
        events (snd (toolNode st w)) = events w ++ tr /\
        Sequential (filter resolved calls) tr) /\
    (forall update,
        fst (toolNode st w) = Ok update ->
        exists observations,
          update = mkUpdate (Some (map ToolMessage observations)) None /\
          Forall2 answers (filter registered calls) observations /\
          map Tool.tool_call_id observations
          = map ToolCall.id (filter registered calls) /\
          events (snd (toolNode st w))
          = events w ++ answered (filter registered calls)) /\
    (forallb (fun call => registered call && succeeds call) calls = true ->
     exists observations,
       toolNode st w
       = (Ok (mkUpdate (Some (map ToolMessage observations)) None),
          mkWorld (invocations w) (events w ++ answered calls)) /\
       Forall2 answers calls observations /\
       map Tool.tool_call_id observations = map ToolCall.id calls).
Proof.
  intros earlier text calls n w st. unfold st. rewrite toolNode_on_calls.
  destruct (dispatch_run calls [] w) as [_ [tr [Hev [Hseq Hres]]]].
  split; [|split].
  - exists tr. split; [|exact Hseq].
    destruct (dispatch calls [] w) as [[result|e] w']; exact Hev.
  - intros update Hup.
    destruct (dispatch calls [] w) as [[result|e] w']; [|discriminate].
    simpl in *. injection Hup as <-.
    destruct Hres as [obs [-> [Hall ->]]]. exists obs.
    rewrite <- (filter_resolved_registered calls (Forall2_answers_succeed Hall)).
    repeat split; [exact Hall|now apply Forall2_answers_ids|exact Hev].
  - intros Hall.
    assert (Hreg : filter registered calls = calls).
    { clear -Hall. induction calls as [|c cs IH]; [reflexivity|].
      simpl in Hall |- *. apply andb_prop in Hall as [Hc Hcs].
      apply andb_prop in Hc as [-> _]. now rewrite IH. }
    assert (Hsucc : Forall (fun call => succeeds call = true) (filter resolved calls)).
    { clear -Hall. induction calls as [|c cs IH]; [constructor|].
      simpl in Hall |- *. apply andb_prop in Hall as [Hc Hcs].
      apply andb_prop in Hc as [_ Hc].
      destruct (resolved c); [constructor|]; auto. }
    destruct (dispatch_returns calls Hsucc [] w) as [obs [-> Hobs]].
    rewrite (filter_resolved_registered calls Hsucc), Hreg in *.
    exists obs. repeat split; [exact Hobs|now apply Forall2_answers_ids].
Qed.

(** C9. Whatever the state, an update [toolNode] returns has no counter
    field, so merging it leaves the counter as it was; this covers the branch
    taken when the log is empty or its last message is not an assistant
    message, where the update is the empty list of messages and nothing else. *)
Theorem toolNode_leaves_llmCalls :
  forall (st : State) (w : World),
    (forall update w',
        toolNode st w = (Ok update, w') ->
        u_llmCalls update = None /\ llmCalls (merge st update) = llmCalls st) /\
    ((forall m, at_last (messages st) <> Some (AIMessage m)) ->
     toolNode st w = (Ok (mkUpdate (Some []) None), w)).
Proof.
  intros st w. unfold toolNode.
  destruct (at_last (messages st)) as [[text|text|m|m]|]; split;
    try (intros update w' [= <- _]; split; reflexivity);
    try reflexivity.
  - unfold bind, ret.
    destruct (dispatch _ _ _) as [[result|e] w1]; intros update w' [= <- _].
    split; reflexivity.
  - intros H. now destruct (H m).
Qed.

(** ** What the nodes leave in the record *)

Lemma entered_app (tr1 tr2 : list Event) :
  entered (tr1 ++ tr2) = entered tr1 ++ entered tr2.
Proof.
  induction tr1 as [|[name|input|call|call] tr1 IH]; simpl; congruence.
Qed.

Lemma Sequential_entered (calls : list ToolCall.t) (tr : list Event) :
  Sequential calls tr -> entered tr = [].
Proof. induction 1; auto. Qed.

Lemma toolNode_record (st : State) (w : World) :
  exists tr,
    events (snd (toolNode st w)) = events w ++ tr /\ entered tr = [].
Proof.
  unfold toolNode.
  destruct (at_last (messages st)) as [[text|text|m|m]|];
    try (exists []; simpl; now rewrite app_nil_r).
  unfold bind, ret.
  destruct (dispatch_run (tool_calls_or_empty m) [] w) as [_ [tr [Hev [Hseq _]]]].
  exists tr. split; [|exact (Sequential_entered Hseq)].
  destruct (dispatch _ _ _) as [[result|e] w']; exact Hev.
Qed.

Lemma llmCall_record (modelWithTools : nat -> list Message -> Result AI.t)
    (st : State) (w : World) :
  events (snd (llmCall modelWithTools st w))
  = events w ++ [EvModel (SystemMessage system_prompt :: messages st)].
Proof.
  unfold llmCall, bind, modelWithTools_invoke, ret.
  destruct (modelWithTools _ _); reflexivity.
Qed.

(** ** The compiled graph *)

Lemma agent_graph (modelWithTools : nat -> list Message -> Result AI.t) :
  agent modelWithTools
  = Ok (StateGraph.mk
          [("llmCall", llmCall modelWithTools); ("toolNode", toolNode)]
          [(START, "llmCall"); ("toolNode", "llmCall")]
          [("llmCall", (shouldContinue, ["toolNode"; END]))]).
Proof. reflexivity. Qed.

Lemma shouldContinue_cases (st : State) :
  shouldContinue st = END \/ shouldContinue st = "toolNode".
Proof.
  unfold shouldContinue.
  destruct (at_last (messages st)) as [[text|text|m|m]|]; auto.
  destruct (AI.tool_calls m) as [[|call calls]|]; auto.
Qed.

Section Wiring.

Variable modelWithTools : nat -> list Message -> Result AI.t.

Local Abbreviation g :=
  (StateGraph.mk
     [("llmCall", llmCall modelWithTools); ("toolNode", toolNode)]
     [(START, "llmCall"); ("toolNode", "llmCall")]
     [("llmCall", (shouldContinue, ["toolNode"; END]))]).

Lemma destination_START (st : State) :
  StateGraph.destination g START st = Ok "llmCall".
Proof. reflexivity. Qed.

Lemma destination_toolNode (st : State) :
  StateGraph.destination g "toolNode" st = Ok "llmCall".
Proof. reflexivity. Qed.

Lemma destination_llmCall (st : State) :
  StateGraph.destination g "llmCall" st = Ok (shouldContinue st).
Proof.
  unfold StateGraph.destination. cbn [StateGraph.edges StateGraph.branches].
  change (own [(START, "llmCall"); ("toolNode", "llmCall")] "llmCall")
    with (@None string).
  change (own [("llmCall", (shouldContinue, ["toolNode"; END]))] "llmCall")
    with (Some (shouldContinue, ["toolNode"; END])).
  cbv beta iota zeta.
  destruct (shouldContinue_cases st) as [-> | ->]; reflexivity.
Qed.

Lemma exec_llmCall (fuel : nat) (st : State) (w : World) :
  StateGraph.exec g (S fuel) "llmCall" st w
  = match llmCall modelWithTools st
            (mkWorld (invocations w) (events w ++ [EvNode "llmCall"])) with
    | (Throw e, w') => (StateGraph.Aborted e, w')
    | (Ok update, w') =>
        if shouldContinue (merge st update) =? END
        then (StateGraph.Finished (merge st update), w')
        else StateGraph.exec g fuel "toolNode" (merge st update) w'
    end.
Proof.
  cbn [StateGraph.exec].
  change (own (StateGraph.nodes g) "llmCall") with (Some (llmCall modelWithTools)).
  cbv beta iota. unfold bind at 1. rewrite emit_events.
  destruct (llmCall _ _ _) as [[update|e] w']; [|reflexivity].
  cbv zeta. rewrite destination_llmCall.
  destruct (shouldContinue_cases (merge st update)) as [-> | ->]; reflexivity.
Qed.

Lemma exec_toolNode (fuel : nat) (st : State) (w : World) :
  StateGraph.exec g (S fuel) "toolNode" st w
  = match toolNode st
            (mkWorld (invocations w) (events w ++ [EvNode "toolNode"])) with
    | (Throw e, w') => (StateGraph.Aborted e, w')
    | (Ok update, w') => StateGraph.exec g fuel "llmCall" (merge st update) w'
    end.
Proof.
  cbn [StateGraph.exec].
  change (own (StateGraph.nodes g) "toolNode") with (Some toolNode).
  cbv beta iota. unfold bind at 1. rewrite emit_events.
  destruct (toolNode _ _) as [[update|e] w']; [|reflexivity].
  cbv zeta. rewrite destination_toolNode. reflexivity.
Qed.

(** The nodes a run enters from [llmCall] are a prefix of
    [llmCall (toolNode llmCall)*], and all of it when the run finishes; from
    [toolNode] they are a prefix of [(toolNode llmCall)*]. *)
Lemma exec_entered (fuel : nat) :
  forall (st : State) (w : World),
    (exists tr,
        events (snd (StateGraph.exec g fuel "llmCall" st w)) = events w ++ tr /\
        (exists k rest, entered tr ++ rest = "llmCall" :: rounds k) /\
        (forall final,
            fst (StateGraph.exec g fuel "llmCall" st w) = StateGraph.Finished final ->
            exists k, entered tr = "llmCall" :: rounds k)) /\
    (exists tr,
        events (snd (StateGraph.exec g fuel "toolNode" st w)) = events w ++ tr /\
        (exists k rest, entered tr ++ rest = rounds k) /\
        (forall final,
            fst (StateGraph.exec g fuel "toolNode" st w) = StateGraph.Finished final ->
            exists k, entered tr = rounds (S k))).
Proof.
  induction fuel as [|fuel IH]; intros st w.
  - split; exists []; simpl; rewrite app_nil_r; repeat split;
      try discriminate; [exists 0, ["llmCall"]|exists 0, []]; reflexivity.
  - split.
    + rewrite exec_llmCall.
      pose proof (llmCall_record modelWithTools st
                    (mkWorld (invocations w) (events w ++ [EvNode "llmCall"])))
        as Hrec.
      destruct (llmCall _ _ _) as [[update|e] w1]; simpl in Hrec.
      * destruct (shouldContinue (merge st update) =? END).
        -- eexists. split; [simpl; rewrite Hrec, <- app_assoc; reflexivity|].
           simpl. split; [exists 0, []|intros _ _; exists 0]; reflexivity.
        -- destruct (IH (merge st update) w1) as [_ [tr [Hev [[k [rest Hpre]] Hfin]]]].
           exists (EvNode "llmCall"
                     :: EvModel (SystemMessage system_prompt :: messages st) :: tr).
           split; [rewrite Hev, Hrec, <- !app_assoc; reflexivity|].
           simpl. split.
           ++ exists k, rest. now rewrite Hpre.
           ++ intros final Hf. destruct (Hfin final Hf) as [k' ->].
              now exists (S k').
      * eexists. split; [simpl; rewrite Hrec, <- app_assoc; reflexivity|].
        simpl. split; [exists 0, []; reflexivity|discriminate].
    + rewrite exec_toolNode.
      destruct (toolNode_record st
                  (mkWorld (invocations w) (events w ++ [EvNode "toolNode"])))
        as [ttr [Hrec Hnone]].
      destruct (toolNode _ _) as [[update|e] w1]; simpl in Hrec.
      * destruct (IH (merge st update) w1) as [[tr [Hev [[k [rest Hpre]] Hfin]]] _].
        exists (EvNode "toolNode" :: ttr ++ tr).
        split; [rewrite Hev, Hrec, <- !app_assoc; reflexivity|].
        simpl. rewrite entered_app, Hnone. simpl. split.
        -- exists (S k), rest. simpl. now rewrite Hpre.
        -- intros final Hf. destruct (Hfin final Hf) as [k' ->]. now exists k'.
      * exists (EvNode "toolNode" :: ttr).
        split; [simpl; rewrite Hrec, <- app_assoc; reflexivity|].
        simpl. rewrite Hnone. split; [exists 1, ["llmCall"]; reflexivity|discriminate].
Qed.

End Wiring.

(** Two neighbours in [llmCall (toolNode llmCall)*] are different nodes. *)
Lemma rounds_neighbours (k : nat) :
  forall (front back : list string) (a b : string),
    (front ++ a :: b :: back = "llmCall" :: rounds k \/
     front ++ a :: b :: back = rounds k) ->
    (a = "llmCall" /\ b = "toolNode") \/ (a = "toolNode" /\ b = "llmCall").
Proof.
  induction k as [|k IH].
  - intros front back a b [H|H].
    + destruct front as [|x [|y front]]; discriminate.
    + destruct front; discriminate.
  - assert (Hround : forall front back a b,
               front ++ a :: b :: back = rounds (S k) ->
               (a = "llmCall" /\ b = "toolNode") \/ (a = "toolNode" /\ b = "llmCall")).
    { intros front back a b H. simpl in H. destruct front as [|x front].
      - injection H as -> -> _. auto.
      - injection H as _ H. apply (IH front back a b). left. exact H. }
    intros front back a b [H|H]; [|now apply (Hround front back)].
    destruct front as [|x front].
    + injection H as -> -> _. auto.
    + injection H as _ H. now apply (Hround front back).
Qed.

Lemma last_rounds (k : nat) (d : string) :
  last ("llmCall" :: rounds k) d = "llmCall".
Proof. induction k as [|k IH]; [reflexivity|exact IH]. Qed.

(** ** Failing handlers *)

(** C3, as the code has it.  When the handler of a call fails, and the calls
    before it in the batch were skipped or succeeded, [toolNode] fails with
    the handler's error: it returns no update, so no tool message is appended
    for the failing call nor for the calls answered before it, and no later
    call of the batch is started.  The executor then aborts the run with the
    same error. *)
Theorem toolNode_failure_propagates :
  forall (earlier : list Message) (text : string)
         (before : list ToolCall.t) (call : ToolCall.t) (later : list ToolCall.t)
         (n : number) (w : World) (e : Error),
    Forall (fun c => succeeds c = true) (filter resolved before) ->
    resolved call = true ->
    outcome call = Throw e ->
    let st :=
      mkState (earlier ++ [AIMessage (AI.mk text (Some (before ++ call :: later)))]) n in
    toolNode st w
    = (Throw e,
       mkWorld (invocations w)
         (events w ++ answered (filter resolved before) ++ [EvToolStart call])) /\
    forall (modelWithTools : nat -> list Message -> Result AI.t)
           (g : StateGraph.t) (fuel : nat),
      agent modelWithTools = Ok g ->
      fst (StateGraph.exec g (S fuel) "toolNode" st w) = StateGraph.Aborted e.
Proof.
  intros earlier text before call later n w e Hbefore Hres Hout st.
  assert (Hnode : forall w0,
             toolNode st w0
             = (Throw e,
                mkWorld (invocations w0)
                  (events w0 ++ answered (filter resolved before)
                     ++ [EvToolStart call]))).
  { intros w0. unfold st. rewrite toolNode_on_calls, dispatch_app.
    destruct (dispatch_returns before Hbefore [] w0) as [obs [-> _]].
    rewrite dispatch_cons, Hres, Hout. simpl. now rewrite <- app_assoc. }
  split; [apply Hnode|].
  intros modelWithTools g fuel Hg. rewrite agent_graph in Hg.
  injection Hg as <-. rewrite exec_toolNode, Hnode. reflexivity.
Qed.

(** ** Runs of the agent *)

(** C10. The compiled graph enters at [llmCall]; from [llmCall] the
    destination is [toolNode] or [END]; from [toolNode] it is [llmCall].  So
    the nodes any run enters, finished or not, are a prefix of
    [llmCall (toolNode llmCall)*]: the first is [llmCall] and [toolNode] is
    never entered twice in a row; the nodes of a run that reached [END] match
    [llmCall (toolNode llmCall)*], the last of them being [llmCall]. *)
Theorem agent_node_sequence :
  forall (modelWithTools : nat -> list Message -> Result AI.t),
    exists g,
      agent modelWithTools = Ok g /\
      (forall st, StateGraph.destination g START st = Ok "llmCall") /\
      (forall st, StateGraph.destination g "llmCall" st = Ok "toolNode" \/
                  StateGraph.destination g "llmCall" st = Ok END) /\
      (forall st, StateGraph.destination g "toolNode" st = Ok "llmCall") /\
      forall (input : list Message) (fuel : nat) (w : World),
      exists tr,
        events (snd (StateGraph.invoke (agent modelWithTools) input fuel w))
        = events w ++ tr /\
        (exists k rest, entered tr ++ rest = "llmCall" :: rounds k) /\
        (entered tr = [] \/ exists rest, entered tr = "llmCall" :: rest) /\
        (forall front back,
            entered tr <> front ++ "toolNode" :: "toolNode" :: back) /\
        (forall final,
            fst (StateGraph.invoke (agent modelWithTools) input fuel w)
            = StateGraph.Finished final ->
            (exists k, entered tr = "llmCall" :: rounds k) /\
            last (entered tr) "" = "llmCall").
Proof.
  intros modelWithTools. eexists. split; [apply agent_graph|].
  split; [intros st; apply destination_START|].
  split; [intros st; rewrite destination_llmCall;
          destruct (shouldContinue_cases st) as [-> | ->]; auto|].
  split; [intros st; apply destination_toolNode|].
  intros input fuel w. rewrite agent_graph. unfold StateGraph.invoke.
  rewrite destination_START. change ("llmCall" =? END) with false. cbv iota zeta.
  destruct (exec_entered modelWithTools fuel
              (merge (mkState [] llmCalls_default) (mkUpdate (Some input) None)) w)
    as [[tr [Hev [[k [rest Hpre]] Hfin]]] _].
  exists tr. split; [exact Hev|]. split; [now exists k, rest|]. split; [|split].
  - destruct (entered tr) as [|x xs]; [now left|right].
    injection Hpre as -> _. now exists xs.
  - intros front back Heq. rewrite Heq, <- app_assoc in Hpre. simpl in Hpre.
    destruct (rounds_neighbours k front (back ++ rest) "toolNode" "toolNode"
                (or_introl Hpre)) as [[? _]|[_ ?]]; discriminate.
  - intros final Hf. destruct (Hfin final Hf) as [k' Hk].
    split; [now exists k'|]. rewrite Hk. apply last_rounds.
Qed.

(** C4. Let the backend answer its first invocation with an assistant message
    whose only tool call is [add] on [{a: 3, b: 4}], and its second with the
    assistant message ["7"] without tool calls.  From the log
    [Human("Add 3 and 4")] the run of the compiled graph finishes, for every
    allowance of at least three node executions, in the state whose log is
    [Human, Assistant(tool call), ToolResult(7), Assistant("7")] and whose
    counter is 2, having entered [llmCall], [toolNode], [llmCall]. *)
Theorem add_3_and_4_scenario :
  forall (modelWithTools : nat -> list Message -> Result AI.t)
         (text id : string) (none : option (list ToolCall.t)) (fuel : nat),
    let call := ToolCall.mk "add" [("a", JNum 3%float); ("b", JNum 4%float)] id in
    let request := AI.mk text (Some [call]) in
    let answer := AI.mk "7" none in
    (forall input, modelWithTools 0 input = Ok request) ->
    (forall input, modelWithTools 1 input = Ok answer) ->
    none = None \/ none = Some [] ->
    3 <= fuel ->
    exists w,
      StateGraph.invoke (agent modelWithTools) [HumanMessage "Add 3 and 4"] fuel boot
      = (StateGraph.Finished
           (mkState [ HumanMessage "Add 3 and 4";
                      AIMessage request;
                      ToolMessage (Tool.mk 7%float id "add");
                      AIMessage answer ]
                    2%float),
         w) /\
      length [ HumanMessage "Add 3 and 4"; AIMessage request;
               ToolMessage (Tool.mk 7%float id "add"); AIMessage answer ] = 4 /\
      entered (events w) = ["llmCall"; "toolNode"; "llmCall"] /\
      invocations w = 2.
Proof.
  intros modelWithTools text id none fuel call request answer H1 H2 Hnone Hfuel.
  destruct fuel as [|[|[|fuel]]]; try lia.
  rewrite agent_graph. unfold StateGraph.invoke.
  rewrite destination_START. change ("llmCall" =? END) with false. cbv iota zeta.
  rewrite exec_llmCall.
  unfold llmCall at 1, bind, modelWithTools_invoke, ret. cbn [invocations boot].
  rewrite H1. cbv iota beta.
  change (shouldContinue _ =? END) with false. cbv iota.
  rewrite exec_toolNode.
  change (toolNode _ _) with
    (@Ok Update (mkUpdate (Some [ToolMessage (Tool.mk 7%float id "add")]) None),
     mkWorld 1 [EvNode "llmCall";
                EvModel [SystemMessage system_prompt; HumanMessage "Add 3 and 4"];
                EvNode "toolNode"; EvToolStart call; EvToolDone call]).
  cbv iota beta.
  rewrite exec_llmCall.
  unfold llmCall at 1, bind, modelWithTools_invoke, ret. cbn [invocations].
  rewrite H2. cbv iota beta.
  assert (Hend : shouldContinue
                   (merge
                      (merge
                         (merge (mkState [] llmCalls_default)
                            (mkUpdate (Some [HumanMessage "Add 3 and 4"]) None))
                         (mkUpdate (Some [AIMessage request]) (Some 1%float)))
                      (mkUpdate (Some [ToolMessage (Tool.mk 7%float id "add")]) None)
                    |> fun st => merge st (mkUpdate (Some [AIMessage answer]) (Some 1%float)))
                 = END).
  { unfold answer. destruct Hnone as [-> | ->]; reflexivity. }
  rewrite Hend. change (END =? END) with true. cbv iota.
  eexists. split; [reflexivity|]. repeat split.
Qed.

(** ** Examples *)

Lemma add_3_and_4_scenario_witness :
  exists w,
    StateGraph.invoke
      (agent (scripted
                [ AI.mk "" (Some [ToolCall.mk "add"
                                    [("a", JNum 3%float); ("b", JNum 4%float)]
                                    "call_1"]);
                  AI.mk "7" None ]))
      [HumanMessage "Add 3 and 4"] 3 boot
    = (StateGraph.Finished
         (mkState
            [ HumanMessage "Add 3 and 4";
              AIMessage
                (AI.mk "" (Some [ToolCall.mk "add"
                                   [("a", JNum 3%float); ("b", JNum 4%float)]
                                   "call_1"]));
              ToolMessage (Tool.mk 7%float "call_1" "add");
              AIMessage (AI.mk "7" None) ]
            2%float),
       w) /\
    4 = 4 /\
    entered (events w) = ["llmCall"; "toolNode"; "llmCall"] /\
    invocations w = 2.
Proof.
  apply (@add_3_and_4_scenario
           (scripted
              [ AI.mk "" (Some [ToolCall.mk "add"
                                  [("a", JNum 3%float); ("b", JNum 4%float)]
                                  "call_1"]);
                AI.mk "7" None ])
           "" "call_1" None 3);
    [reflexivity | reflexivity | now left | lia].
Defined.

(** Three registered calls with valid arguments: three tool messages, in the
    order of the calls. *)
Lemma toolNode_dispatch_order_witness :
  exists observations,
    toolNode
      (mkState
         ([HumanMessage "Add 3 and 4, multiply 7 by 2, divide 14 by 3"]
            ++ [AIMessage
                  (AI.mk ""
                     (Some
                        [ ToolCall.mk "add"
                            [("a", JNum 3%float); ("b", JNum 4%float)] "call_1";
                          ToolCall.mk "multiply"
                            [("a", JNum 7%float); ("b", JNum 2%float)] "call_2";
                          ToolCall.mk "divide"
                            [("a", JNum 14%float); ("b", JNum 3%float)] "call_3" ]))])
         1%float)
      boot
    = (Ok (mkUpdate (Some (map ToolMessage observations)) None),
       mkWorld 0
         ([] ++ answered
                  [ ToolCall.mk "add"
                      [("a", JNum 3%float); ("b", JNum 4%float)] "call_1";
                    ToolCall.mk "multiply"
                      [("a", JNum 7%float); ("b", JNum 2%float)] "call_2";
                    ToolCall.mk "divide"
                      [("a", JNum 14%float); ("b", JNum 3%float)] "call_3" ])) /\
    Forall2 answers
      [ ToolCall.mk "add" [("a", JNum 3%float); ("b", JNum 4%float)] "call_1";
        ToolCall.mk "multiply" [("a", JNum 7%float); ("b", JNum 2%float)] "call_2";
        ToolCall.mk "divide" [("a", JNum 14%float); ("b", JNum 3%float)] "call_3" ]
      observations /\
    map Tool.tool_call_id observations = ["call_1"; "call_2"; "call_3"].
Proof.
  apply (toolNode_dispatch_order
           [HumanMessage "Add 3 and 4, multiply 7 by 2, divide 14 by 3"] ""
           [ ToolCall.mk "add" [("a", JNum 3%float); ("b", JNum 4%float)] "call_1";
             ToolCall.mk "multiply" [("a", JNum 7%float); ("b", JNum 2%float)] "call_2";
             ToolCall.mk "divide" [("a", JNum 14%float); ("b", JNum 3%float)] "call_3" ]
           1%float boot).
  reflexivity.
Defined.

(** A batch whose second call has a string where a number is expected: the
    first call is answered, the second fails, the third is never started. *)
Lemma toolNode_failure_propagates_witness :
  toolNode
    (mkState
       ([HumanMessage "Add 3 and 4"]
          ++ [AIMessage
                (AI.mk ""
                   (Some
                      ([ ToolCall.mk "add"
                           [("a", JNum 3%float); ("b", JNum 4%float)] "call_1" ]
                         ++ ToolCall.mk "multiply"
                              [("a", JStr "seven"); ("b", JNum 2%float)] "call_2"
                         :: [ ToolCall.mk "divide"
                                [("a", JNum 14%float); ("b", JNum 3%float)]
                                "call_3" ])))])
       1%float)
    boot
  = (Throw (ToolInputParsingException "multiply" "call_2"),
     mkWorld 0
       [ EvToolStart (ToolCall.mk "add"
                        [("a", JNum 3%float); ("b", JNum 4%float)] "call_1");
         EvToolDone (ToolCall.mk "add"
                       [("a", JNum 3%float); ("b", JNum 4%float)] "call_1");
         EvToolStart (ToolCall.mk "multiply"
                        [("a", JStr "seven"); ("b", JNum 2%float)] "call_2") ]).
Proof.
  apply (@toolNode_failure_propagates
           [HumanMessage "Add 3 and 4"] ""
           [ ToolCall.mk "add" [("a", JNum 3%float); ("b", JNum 4%float)] "call_1" ]
           (ToolCall.mk "multiply" [("a", JStr "seven"); ("b", JNum 2%float)] "call_2")
           [ ToolCall.mk "divide" [("a", JNum 14%float); ("b", JNum 3%float)] "call_3" ]
           1%float boot (ToolInputParsingException "multiply" "call_2"));
    [repeat constructor | reflexivity | reflexivity].
Defined.

(** C3 fails as stated: the handler of the first call fails on its
    arguments, and [toolNode] returns no update at all (hence no
    error-carrying tool message), never starts the second call, whose handler
    would have succeeded, and the run of the agent is aborted. *)
Lemma toolNode_failure_not_contained :
  let bad := ToolCall.mk "add" [("a", JStr "three"); ("b", JNum 4%float)] "call_1" in
  let good := ToolCall.mk "add" [("a", JNum 3%float); ("b", JNum 4%float)] "call_2" in
  let st := mkState [HumanMessage "Add three and 4, then 3 and 4";
                     AIMessage (AI.mk "" (Some [bad; good]))] 1%float in
  outcome bad = Throw (ToolInputParsingException "add" "call_1") /\
  outcome good = Ok (Tool.mk 7%float "call_2" "add") /\
  ~ (exists update w, toolNode st boot = (Ok update, w)) /\
  toolNode st boot
  = (Throw (ToolInputParsingException "add" "call_1"), mkWorld 0 [EvToolStart bad]) /\
  fst (StateGraph.invoke
         (agent (scripted [AI.mk "" (Some [bad; good]); AI.mk "7" None]))
         [HumanMessage "Add three and 4, then 3 and 4"] 10 boot)
  = StateGraph.Aborted (ToolInputParsingException "add" "call_1").
Proof.
  repeat split; try reflexivity.
  intros [update [w H]]. discriminate H.
Qed.

(** C5 fails on the code: ["toString"] is not a key of the registry, yet the
    read [toolsByName["toString"]] finds the function inherited from
    [Object.prototype], the call is not skipped, and [toolNode] throws where
    the claim has an update with no tool message.  The run of the agent is
    aborted. *)
Theorem toolNode_inherited_name_throws :
  let call := ToolCall.mk "toString" [] "call_1" in
  let st := mkState [HumanMessage "Add 3 and 4";
                     AIMessage (AI.mk "" (Some [call]))] 1%float in
  registered call = false /\
  own toolsByName (ToolCall.name call) = None /\
  toolNode st boot
  = (Throw (TypeError "t.invoke is not a function"), mkWorld 0 [EvToolStart call]) /\
  fst (StateGraph.invoke
         (agent (scripted [AI.mk "" (Some [call]); AI.mk "7" None]))
         [HumanMessage "Add 3 and 4"] 10 boot)
  = StateGraph.Aborted (TypeError "t.invoke is not a function").
Proof. repeat split. Qed.

(** A call whose name reads as [undefined] in the registry is skipped: the
    node does what it does on the batch without that call; and a batch of
    such calls gives the update with no tool message. *)
Lemma toolNode_skips_undefined :
  forall (earlier : list Message) (text : string)
         (before : list ToolCall.t) (call : ToolCall.t) (later : list ToolCall.t)
         (n : number) (w : World),
    get toolsByName (ToolCall.name call) = Undefined ->
    toolNode
      (mkState (earlier ++ [AIMessage (AI.mk text (Some (before ++ call :: later)))]) n) w
    = toolNode
        (mkState (earlier ++ [AIMessage (AI.mk text (Some (before ++ later)))]) n) w.
Proof.
  intros earlier text before call later n w H.
  rewrite !toolNode_on_calls, !dispatch_app.
  destruct (dispatch before [] w) as [[result|e] w']; [|reflexivity].
  rewrite dispatch_cons. unfold resolved. now rewrite H.
Qed.

Lemma toolNode_skips_undefined_witness :
  toolNode
    (mkState
       ([HumanMessage "Subtract 4 from 3, then add 3 and 4"]
          ++ [AIMessage
                (AI.mk ""
                   (Some
                      ([] ++ ToolCall.mk "subtract"
                               [("a", JNum 3%float); ("b", JNum 4%float)] "call_1"
                          :: [ ToolCall.mk "add"
                                 [("a", JNum 3%float); ("b", JNum 4%float)]
                                 "call_2" ])))])
       1%float)
    boot
  = toolNode
      (mkState
         ([HumanMessage "Subtract 4 from 3, then add 3 and 4"]
            ++ [AIMessage
                  (AI.mk ""
                     (Some
                        ([] ++ [ ToolCall.mk "add"
                                   [("a", JNum 3%float); ("b", JNum 4%float)]
                                   "call_2" ])))])
         1%float)
      boot.
Proof.
  apply (@toolNode_skips_undefined
           [HumanMessage "Subtract 4 from 3, then add 3 and 4"] "" []
           (ToolCall.mk "subtract" [("a", JNum 3%float); ("b", JNum 4%float)] "call_1")
           [ ToolCall.mk "add" [("a", JNum 3%float); ("b", JNum 4%float)] "call_2" ]
           1%float boot).
  reflexivity.
Defined.

(** On a state whose last message is not an assistant message [toolNode]
    returns an update, and it has no counter field. *)
Lemma toolNode_leaves_llmCalls_witness :
  u_llmCalls (mkUpdate (Some []) None) = None /\
  llmCalls (merge (mkState [HumanMessage "Add 3 and 4"] 1%float)
                  (mkUpdate (Some []) None))
  = llmCalls (mkState [HumanMessage "Add 3 and 4"] 1%float).
Proof.
  apply (proj1 (toolNode_leaves_llmCalls
                  (mkState [HumanMessage "Add 3 and 4"] 1%float) boot)
               (mkUpdate (Some []) None) boot).
  reflexivity.
Defined.

(** When every call of the batch has a name that reads as [undefined] in the
    registry, [toolNode] starts no handler and returns the update with no
    tool message. *)
Lemma toolNode_all_undefined :
  forall (earlier : list Message) (text : string) (calls : list ToolCall.t)
         (n : number) (w : World),
    forallb (fun call => negb (resolved call)) calls = true ->
    toolNode (mkState (earlier ++ [AIMessage (AI.mk text (Some calls))]) n) w
    = (Ok (mkUpdate (Some []) None), w).
Proof.
  intros earlier text calls n w H. rewrite toolNode_on_calls.
  assert (Hskip : forall result, dispatch calls result w = (Ok result, w)).
  { induction calls as [|call calls IH]; intros result; [reflexivity|].
    simpl in H. apply andb_prop in H as [Hcall Hcalls].
    rewrite dispatch_cons. apply negb_true_iff in Hcall. rewrite Hcall.
    now apply IH. }
  now rewrite Hskip.
Qed.

Lemma toolNode_all_undefined_witness :
  toolNode
    (mkState
       ([HumanMessage "Subtract 4 from 3"]
          ++ [AIMessage
                (AI.mk ""
                   (Some [ ToolCall.mk "subtract"
                             [("a", JNum 3%float); ("b", JNum 4%float)] "call_1";
                           ToolCall.mk "power"
                             [("a", JNum 3%float); ("b", JNum 4%float)] "call_2" ]))])
       1%float)
    boot
  = (Ok (mkUpdate (Some []) None), boot).
Proof.
  apply (@toolNode_all_undefined
           [HumanMessage "Subtract 4 from 3"] ""
           [ ToolCall.mk "subtract" [("a", JNum 3%float); ("b", JNum 4%float)] "call_1";
             ToolCall.mk "power" [("a", JNum 3%float); ("b", JNum 4%float)] "call_2" ]
           1%float boot).
  reflexivity.
Defined.

(** * Further properties of the nodes, the tools and the runs *)

(** ** The two nodes against each other *)

Lemma shouldContinue_END_last (earlier : list Message) (a : AI.t) (n : number) :
  shouldContinue (mkState (earlier ++ [AIMessage a]) n) = END ->
  final_answer (AIMessage a) = true.
Proof.
  unfold shouldContinue. cbn [messages]. rewrite at_last_app. simpl.
  destruct (AI.tool_calls a) as [[|call calls]|]; try reflexivity.
  discriminate.
Qed.

(** Whenever the edge resolver ends the run, nothing was left to dispatch:
    on a state that [shouldContinue] sends to [END], [toolNode] starts no
    handler and returns the update with no message. *)
Theorem shouldContinue_END_toolNode_idle :
  forall (st : State) (w : World),
    shouldContinue st = END ->
    toolNode st w = (Ok (mkUpdate (Some []) None), w).
Proof.
  intros st w. unfold shouldContinue, toolNode, tool_calls_or_empty.
  destruct (at_last (messages st)) as [[text|text|m|m]|]; try reflexivity.
  destruct (AI.tool_calls m) as [[|call calls]|]; try reflexivity.
  discriminate.
Qed.

Lemma shouldContinue_END_toolNode_idle_witness :
  toolNode (mkState [HumanMessage "Add 3 and 4"; AIMessage (AI.mk "7" (Some []))]
                    1%float) boot
  = (Ok (mkUpdate (Some []) None), boot).
Proof.
  apply (@shouldContinue_END_toolNode_idle
           (mkState [HumanMessage "Add 3 and 4"; AIMessage (AI.mk "7" (Some []))]
                    1%float) boot).
  reflexivity.
Defined.

(** [toolNode] handles the calls of the last message only: the earlier
    messages, among them older assistant messages with tool calls of their
    own, and the counter do not change what it does. *)
Theorem toolNode_last_message_only :
  forall (earlier earlier' : list Message) (m : Message) (n n' : number) (w : World),
    toolNode (mkState (earlier ++ [m]) n) w
    = toolNode (mkState (earlier' ++ [m]) n') w.
Proof.
  intros. unfold toolNode. cbn [messages]. now rewrite !at_last_app.
Qed.

(** ** The registry and the tools *)

(** The tools bound to the model are the tools the dispatcher can run: the
    three names of the registry are distinct, every tool of [tools] is found
    in [toolsByName] under its own name, and a call is registered exactly
    when its name is [add], [multiply] or [divide]. *)
Theorem registry_round_trip :
  NoDup (map fst toolsByName) /\
  map StructuredTool.name tools = map fst toolsByName /\
  (forall t, In t tools -> own toolsByName (StructuredTool.name t) = Some t) /\
  (forall call,
      registered call = true
      <-> In (ToolCall.name call) ["add"; "multiply"; "divide"]).
Proof.
  split; [|split; [reflexivity|split]].
  - repeat constructor; simpl; intuition discriminate.
  - intros t [<-|[<-|[<-|[]]]]; reflexivity.
  - intros call. unfold registered.
    change toolsByName with [("add", add); ("multiply", multiply); ("divide", divide)].
    cbn [own].
    destruct (String.eqb_spec "add" (ToolCall.name call)) as [<-|Ha];
      [split; [intros _; cbn; tauto|reflexivity]|].
    destruct (String.eqb_spec "multiply" (ToolCall.name call)) as [<-|Hm];
      [split; [intros _; cbn; tauto|reflexivity]|].
    destruct (String.eqb_spec "divide" (ToolCall.name call)) as [<-|Hd];
      [split; [intros _; cbn; tauto|reflexivity]|].
    split; [discriminate|]. intros [H|[H|[H|[]]]]; congruence.
Qed.






(** ** Batches of tool calls *)

Lemma dispatch_acc (calls : list ToolCall.t) :
  forall (result : list Tool.t) (w : World),
    dispatch calls result w
    = match dispatch calls [] w with
      | (Ok observations, w') => (Ok (result ++ observations), w')
      | (Throw e, w') => (Throw e, w')
      end.
Proof.
  induction calls as [|call calls IH]; intros result w.
  - simpl. unfold ret. now rewrite app_nil_r.
  - rewrite !dispatch_cons. destruct (resolved call); [|apply IH].
    destruct (outcome call) as [m|e]; [|reflexivity].
    rewrite (IH (result ++ [m])), (IH ([] ++ [m])).
    destruct (dispatch calls [] _) as [[obs|e] w']; [|reflexivity].
    now rewrite <- app_assoc.
Qed.

(** Handling a batch is handling its first part and then the rest: when
    [toolNode] answers the calls [first] with the messages [ms1] and, from
    there, the calls [rest] with [ms2], it answers [first ++ rest] with
    [ms1 ++ ms2]; and when it fails on [first], it fails in the same way on
    [first ++ rest], whose later calls it never starts. *)
Theorem toolNode_batch_compose :
  forall (earlier : list Message) (text : string)
         (first rest : list ToolCall.t) (n : number) (w : World),
    let on calls := mkState (earlier ++ [AIMessage (AI.mk text (Some calls))]) n in
    (forall ms1 ms2 w1 w2,
        toolNode (on first) w = (Ok (mkUpdate (Some ms1) None), w1) ->
        toolNode (on rest) w1 = (Ok (mkUpdate (Some ms2) None), w2) ->
        toolNode (on (first ++ rest)) w
        = (Ok (mkUpdate (Some (ms1 ++ ms2)) None), w2)) /\
    (forall e w1,
        toolNode (on first) w = (Throw e, w1) ->
        toolNode (on (first ++ rest)) w = (Throw e, w1)).
Proof.
  intros earlier text first rest n w on. unfold on.
  rewrite !toolNode_on_calls, dispatch_app. split.
  - intros ms1 ms2 w1 w2. rewrite toolNode_on_calls.
    destruct (dispatch first [] w) as [[r1|e1] w1']; [|discriminate].
    intros [= <- <-]. rewrite (dispatch_acc rest r1).
    destruct (dispatch rest [] w1') as [[r2|e2] w2']; [|discriminate].
    intros [= <- <-]. now rewrite map_app.
  - intros e w1. destruct (dispatch first [] w) as [[r1|e1] w1']; [discriminate|].
    intros [= <- <-]. reflexivity.
Qed.

Lemma toolNode_batch_compose_witness :
  toolNode
    (mkState
       ([HumanMessage "Add 3 and 4, then multiply 7 by 2"]
          ++ [AIMessage
                (AI.mk ""
                   (Some
                      ([ ToolCall.mk "add"
                           [("a", JNum 3%float); ("b", JNum 4%float)] "call_1" ]
                         ++ [ ToolCall.mk "multiply"
                                [("a", JNum 7%float); ("b", JNum 2%float)]
                                "call_2" ])))])
       1%float)
    boot
  = (Ok (mkUpdate
           (Some ([ToolMessage (Tool.mk 7%float "call_1" "add")]
                    ++ [ToolMessage (Tool.mk 14%float "call_2" "multiply")]))
           None),
     mkWorld 0
       (answered
          [ ToolCall.mk "add" [("a", JNum 3%float); ("b", JNum 4%float)] "call_1";
            ToolCall.mk "multiply" [("a", JNum 7%float); ("b", JNum 2%float)]
              "call_2" ])).
Proof.
  apply (proj1 (@toolNode_batch_compose
                  [HumanMessage "Add 3 and 4, then multiply 7 by 2"] ""
                  [ ToolCall.mk "add"
                      [("a", JNum 3%float); ("b", JNum 4%float)] "call_1" ]
                  [ ToolCall.mk "multiply"
                      [("a", JNum 7%float); ("b", JNum 2%float)] "call_2" ]
                  1%float boot)
               [ToolMessage (Tool.mk 7%float "call_1" "add")]
               [ToolMessage (Tool.mk 14%float "call_2" "multiply")]
               (mkWorld 0
                  (answered
                     [ ToolCall.mk "add"
                         [("a", JNum 3%float); ("b", JNum 4%float)] "call_1" ])));
    reflexivity.
Defined.

(** ** Runs, node by node *)


Lemma Sequential_prompted (log : list Message) (calls : list ToolCall.t)
    (tr : list Event) :
  Sequential calls tr -> Forall (prompted log) tr.
Proof. induction 1; repeat constructor; auto. Qed.

(** What [toolNode] returns and leaves behind, whatever the state. *)
Lemma toolNode_effect (st : State) (w : World) :
  invocations (snd (toolNode st w)) = invocations w /\
  (exists tr,
      events (snd (toolNode st w)) = events w ++ tr /\
      forall log, Forall (prompted log) tr) /\
  (forall update,
      fst (toolNode st w) = Ok update ->
      exists result, update = mkUpdate (Some (map ToolMessage result)) None).
Proof.
  unfold toolNode.
  destruct (at_last (messages st)) as [[text|text|m|m]|];
    try (simpl; repeat split;
         [exists []; split; [now rewrite app_nil_r|constructor]
         |intros update [= <-]; now exists []]).
  unfold bind, ret.
  destruct (dispatch_run (tool_calls_or_empty m) [] w) as [Hinv [tr [Hev [Hseq _]]]].
  destruct (dispatch _ _ _) as [[result|e] w']; simpl in *.
  - repeat split; [exact Hinv| |].
    + exists tr. split; [exact Hev|]. intros log. exact (Sequential_prompted log Hseq).
    + intros update [= <-]. now exists result.
  - repeat split; [exact Hinv| |discriminate].
    exists tr. split; [exact Hev|]. intros log. exact (Sequential_prompted log Hseq).
Qed.

Section Runs.

Variable modelWithTools : nat -> list Message -> Result AI.t.

Local Abbreviation g :=
  (StateGraph.mk
     [("llmCall", llmCall modelWithTools); ("toolNode", toolNode)]
     [(START, "llmCall"); ("toolNode", "llmCall")]
     [("llmCall", (shouldContinue, ["toolNode"; END]))]).

(** The world after [llmCall] was entered from [w] on the state [st]. *)
Local Abbreviation asked st w :=
  (mkWorld (S (invocations w))
     (events w ++ [EvNode "llmCall";
                   EvModel (SystemMessage system_prompt :: messages st)])).

Local Abbreviation told st r :=
  (merge st (mkUpdate (Some [AIMessage r]) (Some 1%float))).

(** A property of the runs of the agent holds of every run when it holds at
    each way a run can stop and is carried by each step from node to node. *)
Variable P : string -> State -> World -> StateGraph.Run * World -> Prop.

Hypothesis P_pending :
  forall current st w, P current st w (StateGraph.Pending current st, w).

Hypothesis P_backend_fails :
  forall st w e,
    modelWithTools (invocations w) (SystemMessage system_prompt :: messages st)
    = Throw e ->
    P "llmCall" st w (StateGraph.Aborted e, asked st w).

Hypothesis P_finishes :
  forall st w r,
    modelWithTools (invocations w) (SystemMessage system_prompt :: messages st)
    = Ok r ->
    shouldContinue (told st r) = END ->
    P "llmCall" st w (StateGraph.Finished (told st r), asked st w).

Hypothesis P_to_toolNode :
  forall st w r run,
    modelWithTools (invocations w) (SystemMessage system_prompt :: messages st)
    = Ok r ->
    shouldContinue (told st r) = "toolNode" ->
    P "toolNode" (told st r) (asked st w) run ->
    P "llmCall" st w run.

Hypothesis P_handler_fails :
  forall st w e w',
    toolNode st (mkWorld (invocations w) (events w ++ [EvNode "toolNode"]))
    = (Throw e, w') ->
    P "toolNode" st w (StateGraph.Aborted e, w').

Hypothesis P_to_llmCall :
  forall st w result w' run,
    toolNode st (mkWorld (invocations w) (events w ++ [EvNode "toolNode"]))
    = (Ok (mkUpdate (Some (map ToolMessage result)) None), w') ->
    P "llmCall" (merge st (mkUpdate (Some (map ToolMessage result)) None)) w' run ->
    P "toolNode" st w run.

Lemma exec_by_nodes (fuel : nat) :
  forall (st : State) (w : World),
    P "llmCall" st w (StateGraph.exec g fuel "llmCall" st w) /\
    P "toolNode" st w (StateGraph.exec g fuel "toolNode" st w).
Proof.
  induction fuel as [|fuel IH]; intros st w; [split; apply P_pending|]. split.
  - rewrite exec_llmCall.
    unfold llmCall, bind, modelWithTools_invoke, ret. cbn [invocations events].
    rewrite <- app_assoc. cbn [app].
    destruct (modelWithTools _ _) as [r|e] eqn:E; [|now apply P_backend_fails].
    destruct (shouldContinue_cases (told st r)) as [H|H]; rewrite H.
    + change (END =? END) with true. now apply P_finishes.
    + change ("toolNode" =? END) with false. cbv iota.
      apply (P_to_toolNode _ E H). apply IH.
  - rewrite exec_toolNode.
    destruct (toolNode_effect st
                (mkWorld (invocations w) (events w ++ [EvNode "toolNode"])))
      as [_ [_ Hup]].
    destruct (toolNode st _) as [[update|e] w'] eqn:E;
      [|now apply P_handler_fails].
    destruct (Hup update eq_refl) as [result ->].
    apply (P_to_llmCall _ _ E). apply IH.
Qed.

End Runs.

Lemma invoke_agent (modelWithTools : nat -> list Message -> Result AI.t)
    (input : list Message) (fuel : nat) (w : World) :
  StateGraph.invoke (agent modelWithTools) input fuel w
  = StateGraph.exec
      (StateGraph.mk
         [("llmCall", llmCall modelWithTools); ("toolNode", toolNode)]
         [(START, "llmCall"); ("toolNode", "llmCall")]
         [("llmCall", (shouldContinue, ["toolNode"; END]))])
      fuel "llmCall" (mkState input llmCalls_default) w.
Proof. rewrite agent_graph. reflexivity. Qed.

Lemma Forall_ToolMessage_reply (result : list Tool.t) :
  Forall (fun m => is_reply m = true) (map ToolMessage result).
Proof. induction result; constructor; auto. Qed.

(** ** What a run returns *)

(** The log a finished run returns is the caller's messages, then the
    replies of the run, each an assistant message or a tool message, then as
    its last message an assistant message that requests no tool. *)
Theorem finished_run_log :
  forall (modelWithTools : nat -> list Message -> Result AI.t)
         (input : list Message) (fuel : nat) (w : World) (final : State),
    fst (StateGraph.invoke (agent modelWithTools) input fuel w)
    = StateGraph.Finished final ->
    exists replies answer,
      messages final = input ++ replies ++ [answer] /\
      final_answer answer = true /\
      Forall (fun m => is_reply m = true) replies.
Proof.
  intros modelWithTools input fuel w. rewrite invoke_agent.
  refine (proj1 (@exec_by_nodes modelWithTools
                  (fun _ st _ run =>
                     forall final,
                       fst run = StateGraph.Finished final ->
                       exists replies answer,
                         messages final = messages st ++ replies ++ [answer] /\
                         final_answer answer = true /\
                         Forall (fun m => is_reply m = true) replies)
                  _ _ _ _ _ _ fuel (mkState input llmCalls_default) w)); cbv beta.
  - discriminate.
  - discriminate.
  - intros st w0 r _ Hend final [= <-]. exists [], (AIMessage r).
    repeat split; [|constructor].
    exact (shouldContinue_END_last (messages st) r _ Hend).
  - intros st w0 r run _ _ IH final Hfin.
    destruct (IH final Hfin) as [replies [answer [Hlog [Hans Hall]]]].
    exists (AIMessage r :: replies), answer. rewrite Hlog.
    cbn [messages merge u_messages]. unfold MessagesValue.
    rewrite <- app_assoc. repeat split; [exact Hans|now constructor].
  - discriminate.
  - intros st w0 result w' run _ IH final Hfin.
    destruct (IH final Hfin) as [replies [answer [Hlog [Hans Hall]]]].
    exists (map ToolMessage result ++ replies), answer. rewrite Hlog.
    cbn [messages merge u_messages]. unfold MessagesValue.
    rewrite <- !app_assoc. repeat split; [exact Hans|].
    apply Forall_app. split; [apply Forall_ToolMessage_reply|exact Hall].
Qed.

Lemma finished_run_log_witness :
  exists replies answer,
    messages
      (mkState [HumanMessage "Add 3 and 4";
                AIMessage (AI.mk "" (Some [ToolCall.mk "add"
                                             [("a", JNum 3%float); ("b", JNum 4%float)]
                                             "call_1"]));
                ToolMessage (Tool.mk 7%float "call_1" "add");
                AIMessage (AI.mk "7" None)] 2%float)
    = [HumanMessage "Add 3 and 4"] ++ replies ++ [answer] /\
    final_answer answer = true /\
    Forall (fun m => is_reply m = true) replies.
Proof.
  apply (@finished_run_log
           (scripted
              [ AI.mk "" (Some [ToolCall.mk "add"
                                  [("a", JNum 3%float); ("b", JNum 4%float)]
                                  "call_1"]);
                AI.mk "7" None ])
           [HumanMessage "Add 3 and 4"] 3 boot).
  reflexivity.
Defined.

(** The counter of the state a run has reached, finished or not, is the
    default 0 incremented once for each invocation of the backend made
    during the run. *)
Theorem run_counts_invocations :
  forall (modelWithTools : nat -> list Message -> Result AI.t)
         (input : list Message) (fuel : nat) (w : World),
    let run := StateGraph.invoke (agent modelWithTools) input fuel w in
    invocations w <= invocations (snd run) /\
    forall reached,
      (fst run = StateGraph.Finished reached \/
       exists node, fst run = StateGraph.Pending node reached) ->
      llmCalls reached
      = Nat.iter (invocations (snd run) - invocations w) increment llmCalls_default.
Proof.
  intros modelWithTools input fuel w. cbv zeta. rewrite invoke_agent.
  refine (proj1 (@exec_by_nodes modelWithTools
                  (fun _ st w0 run =>
                     invocations w0 <= invocations (snd run) /\
                     forall reached,
                       (fst run = StateGraph.Finished reached \/
                        exists node, fst run = StateGraph.Pending node reached) ->
                       llmCalls reached
                       = Nat.iter (invocations (snd run) - invocations w0)
                                  increment (llmCalls st))
                  _ _ _ _ _ _ fuel (mkState input llmCalls_default) w)); cbv beta.
  - intros current st w0. split; [reflexivity|].
    intros reached [H|[node H]]; [discriminate|]. injection H as _ <-.
    simpl. now rewrite Nat.sub_diag.
  - intros st w0 e _. split; [simpl; lia|].
    intros reached [H|[node H]]; discriminate.
  - intros st w0 r _ _. split; [simpl; lia|].
    intros reached [H|[node H]]; [|discriminate]. injection H as <-.
    cbn [snd invocations]. replace (S (invocations w0) - invocations w0) with 1 by lia.
    reflexivity.
  - intros st w0 r run _ _ [Hle IH]. cbn [invocations] in Hle.
    split; [lia|]. intros reached Hr. rewrite (IH reached Hr).
    cbn [invocations].
    replace (invocations (snd run) - invocations w0)
      with (S (invocations (snd run) - S (invocations w0))) by lia.
    rewrite Nat.iter_succ_r. reflexivity.
  - intros st w0 e w' H.
    destruct (toolNode_effect st
                (mkWorld (invocations w0) (events w0 ++ [EvNode "toolNode"])))
      as [Hinv _].
    rewrite H in Hinv. simpl in Hinv. split; [simpl; lia|].
    intros reached [Hr|[node Hr]]; discriminate.
  - intros st w0 result w' run H [Hle IH].
    destruct (toolNode_effect st
                (mkWorld (invocations w0) (events w0 ++ [EvNode "toolNode"])))
      as [Hinv _].
    rewrite H in Hinv. simpl in Hinv. rewrite Hinv in *.
    split; [exact Hle|]. intros reached Hr. exact (IH reached Hr).
Qed.


(** ** Single-turn runs *)

(** When the backend answers the first invocation with an assistant message
    that requests no tool, the run finishes after that one step: the log is
    the caller's messages followed by the answer, the counter is 1, and no
    tool was dispatched. *)
Theorem direct_answer_run :
  forall (modelWithTools : nat -> list Message -> Result AI.t)
         (input : list Message) (answer : AI.t) (fuel : nat) (w : World),
    modelWithTools (invocations w) (SystemMessage system_prompt :: input)
    = Ok answer ->
    final_answer (AIMessage answer) = true ->
    StateGraph.invoke (agent modelWithTools) input (S fuel) w
    = (StateGraph.Finished (mkState (input ++ [AIMessage answer]) 1%float),
       mkWorld (S (invocations w))
         (events w ++ [EvNode "llmCall";
                       EvModel (SystemMessage system_prompt :: input)])).
Proof.
  intros modelWithTools input answer fuel w Hanswer Hfinal.
  rewrite invoke_agent, exec_llmCall.
  unfold llmCall, bind, modelWithTools_invoke, ret. cbn [invocations events messages].
  rewrite Hanswer, <- app_assoc. cbn [app].
  assert (Hend : shouldContinue
                   (merge (mkState input llmCalls_default)
                          (mkUpdate (Some [AIMessage answer]) (Some 1%float)))
                 = END).
  { unfold shouldContinue, merge, MessagesValue. cbn [messages u_messages].
    rewrite at_last_app. simpl in Hfinal |- *.
    destruct (AI.tool_calls answer) as [[|call calls]|];
      [reflexivity|discriminate|reflexivity]. }
  rewrite Hend. reflexivity.
Qed.

Lemma direct_answer_run_witness :
  StateGraph.invoke (agent (scripted [AI.mk "Hello" None]))
    [HumanMessage "Hello"] 1 boot
  = (StateGraph.Finished
       (mkState ([HumanMessage "Hello"] ++ [AIMessage (AI.mk "Hello" None)]) 1%float),
     mkWorld 1
       ([] ++ [EvNode "llmCall";
               EvModel (SystemMessage system_prompt :: [HumanMessage "Hello"])])).
Proof.
  apply (@direct_answer_run (scripted [AI.mk "Hello" None])
           [HumanMessage "Hello"] (AI.mk "Hello" None) 0 boot);
    reflexivity.
Defined.

(** When the backend fails on the first invocation, the run is aborted with
    the backend's error: no state is returned and no tool is dispatched. *)
Theorem backend_failure_aborts_run :
  forall (modelWithTools : nat -> list Message -> Result AI.t)
         (input : list Message) (e : Error) (fuel : nat) (w : World),
    modelWithTools (invocations w) (SystemMessage system_prompt :: input)
    = Throw e ->
    StateGraph.invoke (agent modelWithTools) input (S fuel) w
    = (StateGraph.Aborted e,
       mkWorld (S (invocations w))
         (events w ++ [EvNode "llmCall";
                       EvModel (SystemMessage system_prompt :: input)])).
Proof.
  intros modelWithTools input e fuel w Hfail.
  rewrite invoke_agent, exec_llmCall.
  unfold llmCall, bind, modelWithTools_invoke, ret. cbn [invocations events messages].
  rewrite Hfail, <- app_assoc. reflexivity.
Qed.

Lemma backend_failure_aborts_run_witness :
  StateGraph.invoke (agent (scripted [])) [HumanMessage "Hello"] 1 boot
  = (StateGraph.Aborted (BackendError "no reply left"),
     mkWorld 1
       ([] ++ [EvNode "llmCall";
               EvModel (SystemMessage system_prompt :: [HumanMessage "Hello"])])).
Proof.
  apply (@backend_failure_aborts_run (scripted []) [HumanMessage "Hello"]
           (BackendError "no reply left") 0 boot).
  reflexivity.
Defined.
